(** * ShameBot: a shallow embedding of the tokenizer, the JSON-file store
    ([src/src/user.rs]) and the message dispatcher ([src/src/main.rs]). *)

From Stdlib Require Import ZArith Lia.
From stdpp Require Import base gmap list strings.
Import String.

Open Scope Z_scope.

(* ------------------------------------------------------------------ *)
(** ** Machine integers: [i32] *)

Definition I32_MIN : Z := - 2 ^ 31.
Definition I32_MAX : Z := 2 ^ 31 - 1.

(** Two's-complement wrap-around of [i32] addition.  The store code uses
    [+=] and [.sum()] on [i32]; the embedding follows the release-build
    semantics, where overflow wraps (a debug build panics instead). *)
Definition wrap32 (z : Z) : Z := (z + 2 ^ 31) mod 2 ^ 32 - 2 ^ 31.

Definition in_i32 (z : Z) : bool := (I32_MIN <=? z) && (z <=? I32_MAX).

(** [str::parse::<i32>]: an optional leading ['+'] or ['-'], then one or
    more ASCII digits, and the value must fit in [i32]. *)
Fixpoint digits_val (s : string) (acc : Z) : option Z :=
  match s with
  | EmptyString => Some acc
  | String c s' =>
      let n := Z.of_nat (Ascii.nat_of_ascii c) in
      if (48 <=? n) && (n <=? 57) then digits_val s' (acc * 10 + (n - 48))
      else None
  end.

Definition check_i32 (z : Z) : option Z := if in_i32 z then Some z else None.

Definition parse_i32 (s : string) : option Z :=
  match s with
  | EmptyString => None
  | String c rest =>
      if Ascii.eqb c (Ascii.ascii_of_nat 45) then
        match rest with
        | EmptyString => None
        | _ => match digits_val rest 0 with
               | Some v => check_i32 (- v)
               | None => None
               end
        end
      else if Ascii.eqb c (Ascii.ascii_of_nat 43) then
        match rest with
        | EmptyString => None
        | _ => match digits_val rest 0 with
               | Some v => check_i32 v
               | None => None
               end
        end
      else match digits_val s 0 with
           | Some v => check_i32 v
           | None => None
           end
  end.

(* ------------------------------------------------------------------ *)
(** ** Tokenizer: [parse_command_with_quotes] (main.rs) *)

Definition quote_char : Ascii.ascii := Ascii.ascii_of_nat 34.
Definition space_char : Ascii.ascii := Ascii.ascii_of_nat 32.

(** The [while let Some(ch) = chars.next()] loop, with the flag
    [in_quotes], the accumulator [current_part] and the output [parts]. *)
Fixpoint parse_loop (s : string) (in_quotes : bool) (current_part : string)
    (parts : list string) : list string :=
  match s with
  | EmptyString =>
      (* Don't forget the last part *)
      if String.eqb current_part EmptyString then parts
      else parts ++ [current_part]
  | String ch s' =>
      if Ascii.eqb ch quote_char then
        parse_loop s' (negb in_quotes) current_part parts
      else if Ascii.eqb ch space_char && negb in_quotes then
        if String.eqb current_part EmptyString then
          parse_loop s' in_quotes current_part parts
        else parse_loop s' in_quotes EmptyString (parts ++ [current_part])
      else parse_loop s' in_quotes (current_part ++ String ch EmptyString) parts
  end.

Definition parse_command_with_quotes (input : string) : list string :=
  parse_loop input false EmptyString [].

(* ------------------------------------------------------------------ *)
(** ** Store data model (user.rs) *)

(** [struct User { user: String, games: HashMap<String, i32> }] *)
Record User := { user : string; games : gmap string Z }.

(** The error values the store returns (the source boxes formatted
    strings; each [return Err(...)] site is one constructor). *)
Inductive StoreError :=
| InvalidNumber
| UserNotFound
| GameNotFound
| AlreadyExists
| GameAlreadyExists
| PersistenceFailure.

Inductive Result (A : Type) :=
| Ok (a : A)
| Err (e : StoreError).
Arguments Ok {A} a.
Arguments Err {A} e.

(** The persisted document [../users.json], seen through [serde_json]:
    unreadable (absent file or I/O error), empty, text that does not parse
    as a [Vec<User>], or the JSON encoding of a collection.  A save writes
    [to_string_pretty] of the collection, which is never empty and decodes
    back to the same collection. *)
Inductive Doc :=
| DocReadError
| DocEmpty
| DocMalformed (raw : string)
| DocJson (users : list User).

(** The file system as the store sees it: the document, and whether
    [std::fs::write] succeeds. *)
Record FS := { doc : Doc; writable : bool }.

(** [load_user_file] *)
Definition load_user_file (d : Doc) : list User :=
  match d with
  | DocReadError => []
  | DocEmpty => []
  | DocMalformed _ => []          (* unwrap_or_else(|_| Vec::new()) *)
  | DocJson users => users
  end.

(** [save_users_to_file] *)
Definition save_users_to_file (users : list User) (fs : FS) : Result unit * FS :=
  if writable fs then (Ok tt, {| doc := DocJson users; writable := true |})
  else (Err PersistenceFailure, fs).

(** A mutating operation, after [load_user_file]: it either returns an
    error before any save ([Early]) or reaches [save_users_to_file] with the
    modified collection and a value to return on success ([Commit]). *)
Inductive Outcome (A : Type) :=
| Early (e : StoreError)
| Commit (users : list User) (v : A).
Arguments Early {A} e.
Arguments Commit {A} users v.

Definition run_op {A} (op : list User -> Outcome A) (fs : FS) : Result A * FS :=
  match op (load_user_file (doc fs)) with
  | Early e => (Err e, fs)
  | Commit users v =>
      match save_users_to_file users fs with
      | (Ok _, fs') => (Ok v, fs')
      | (Err e, fs') => (Err e, fs')
      end
  end.

(** A query: [load_user_file], then a pure function of the collection. *)
Definition run_query {A} (q : list User -> Result A) (fs : FS) : Result A :=
  q (load_user_file (doc fs)).

(** [users.iter().find(|user| user.user == username)] *)
Definition find_user (username : string) (users : list User) : option User :=
  List.find (fun u => String.eqb (user u) username) users.

(** Writing through the [&mut User] returned by [iter_mut().find(..)]:
    the first user with that name is replaced. *)
Fixpoint update_first (username : string) (f : User -> User) (users : list User)
    : list User :=
  match users with
  | [] => []
  | u :: us =>
      if String.eqb (user u) username then f u :: us
      else u :: update_first username f us
  end.

(** [users.retain(|u| u.user != username)] *)
Definition retain_not (username : string) (users : list User) : list User :=
  List.filter (fun u => negb (String.eqb (user u) username)) users.

Definition set_games (gs : gmap string Z) (u : User) : User :=
  {| user := user u; games := gs |}.

(** [add_game] *)
Definition add_game (username game starting_total : string) (users : list User)
    : Outcome unit :=
  match parse_i32 starting_total with
  | None => Early InvalidNumber
  | Some total =>
      match find_user username users with
      | Some u =>
          if bool_decide (is_Some (games u !! game)) then Early GameAlreadyExists
          else Commit (update_first username
                         (set_games (<[game := total]> (games u))) users) tt
      | None => Early UserNotFound
      end
  end.

(** [add_user] *)
Definition add_user (username game starting_total : string) (users : list User)
    : Outcome unit :=
  match parse_i32 starting_total with
  | None => Early InvalidNumber
  | Some total =>
      if List.existsb (fun u => String.eqb (user u) username) users then
        Early AlreadyExists
      else
        Commit (users ++ [{| user := username; games := {[game := total]} |}]) tt
  end.

(** [update_total]: [*current_total += additional] on [i32], and
    [crossed_threshold = old_total < 300 && new_total >= 300]. *)
Definition update_total (username game additional_total : string)
    (users : list User) : Outcome (Z * bool) :=
  match parse_i32 additional_total with
  | None => Early InvalidNumber
  | Some additional =>
      match find_user username users with
      | Some u =>
          match games u !! game with
          | Some old_total =>
              let new_total := wrap32 (old_total + additional) in
              Commit (update_first username
                        (set_games (<[game := new_total]> (games u))) users)
                     (new_total, (old_total <? 300) && (300 <=? new_total))
          | None => Early GameNotFound
          end
      | None => Early UserNotFound
      end
  end.

(** [get_users] *)
Definition get_users (users : list User) : Result (list User) := Ok users.

(** [get_game_total] *)
Definition get_game_total (username game : string) (users : list User) : Result Z :=
  match find_user username users with
  | Some u =>
      match games u !! game with
      | Some total => Ok total
      | None => Err GameNotFound
      end
  | None => Err UserNotFound
  end.

(** [get_user_total_all_games]: [user.games.values().sum()] on [i32]. *)
Definition get_user_total_all_games (username : string) (users : list User)
    : Result Z :=
  match find_user username users with
  | Some u => Ok (wrap32 (map_fold (fun _ v acc => v + acc) 0 (games u)))
  | None => Err UserNotFound
  end.

(** [get_user_games] *)
Definition get_user_games (username : string) (users : list User)
    : Result (gmap string Z) :=
  match find_user username users with
  | Some u => Ok (games u)
  | None => Err UserNotFound
  end.

(** [remove_game]: [user.games.remove(game)] and, when the map is left
    empty, [users.retain(|u| u.user != username)] before the save. *)
Definition remove_game (username game : string) (users : list User)
    : Outcome unit :=
  match find_user username users with
  | Some u =>
      match games u !! game with
      | Some _ =>
          let gs := delete game (games u) in
          let users1 := update_first username (set_games gs) users in
          if bool_decide (gs = ∅) then Commit (retain_not username users1) tt
          else Commit users1 tt
      | None => Early GameNotFound
      end
  | None => Early UserNotFound
  end.

(** [delete_user] *)
Definition delete_user (username : string) (users : list User) : Outcome unit :=
  let users' := retain_not username users in
  if Nat.ltb (length users') (length users) then Commit users' tt
  else Early UserNotFound.

(** The five mutating store operations, with their return values dropped. *)
Inductive MutOp :=
| MAddUser (username game total : string)
| MAddGame (username game total : string)
| MUpdateTotal (username game additional : string)
| MRemoveGame (username game : string)
| MDeleteUser (username : string).

Definition forget {A} (o : Outcome A) : Outcome unit :=
  match o with
  | Early e => Early e
  | Commit us _ => Commit us tt
  end.

Definition mut_op (m : MutOp) (users : list User) : Outcome unit :=
  match m with
  | MAddUser n g t => add_user n g t users
  | MAddGame n g t => add_game n g t users
  | MUpdateTotal n g t => forget (update_total n g t users)
  | MRemoveGame n g => remove_game n g users
  | MDeleteUser n => delete_user n users
  end.

Definition run_mut (m : MutOp) (fs : FS) : Result unit * FS := run_op (mut_op m) fs.

(* ------------------------------------------------------------------ *)
(** ** Dispatcher: [EventHandler::message] (main.rs) *)

(** The commands that take arguments; each is selected by
    [msg.content.starts_with(keyword)]. *)
Inductive Cmd :=
| KAddUser | KAddGame | KUpdateTotal | KRemoveGame
| KDeleteUser | KUserGames | KGameTotal | KUserTotal.

Definition keyword (k : Cmd) : string :=
  match k with
  | KAddUser => "!adduser" | KAddGame => "!addgame"
  | KUpdateTotal => "!updatetotal" | KRemoveGame => "!removegame"
  | KDeleteUser => "!deleteuser" | KUserGames => "!usergames"
  | KGameTotal => "!gametotal" | KUserTotal => "!usertotal"
  end.

(** The [parts.len() != n] check of each handler. *)
Definition arity (k : Cmd) : nat :=
  match k with
  | KAddUser | KAddGame | KUpdateTotal => 4
  | KRemoveGame | KGameTotal => 3
  | KDeleteUser | KUserGames | KUserTotal => 2
  end.

(** The store functions a handler calls. *)
Inductive StoreCall :=
| CAddUser (username game total : string)
| CAddGame (username game total : string)
| CUpdateTotal (username game additional : string)
| CRemoveGame (username game : string)
| CDeleteUser (username : string)
| CUserGames (username : string)
| CGetUsers
| CGameTotal (username game : string)
| CUserTotal (username : string).

(** The messages the bot sends, one constructor per [say]/[send_message]
    site; [RUsage k] is the literal "Usage: ..." string of command [k]. *)
Inductive Reply :=
| RHelp
| RQuickHelp
| RUsage (k : Cmd)
| RError (e : StoreError)
| RAddedUser (username game total : string)
| RAddedGame (game total username : string)
| RUpdated (username game : string) (new_total : Z)
| RAlert (username game : string)
| RRemovedGame (game username : string)
| RDeletedUser (username : string)
| RNoGames (username : string)
| RUserGames (username : string) (gs : gmap string Z)
| RNoUsers
| RAllUsers (users : list User)
| RGameTotal (username game : string) (total : Z)
| RUserTotal (username : string) (total : Z).

Inductive Event :=
| Say (r : Reply)
| Call (c : StoreCall).

(** Control flow of the handler body: fall through to the next [if], or
    leave it with [return]. *)
Inductive Flow :=
| Continue (evs : list Event) (fs : FS)
| Return (evs : list Event) (fs : FS).

Definition arg (parts : list string) (i : nat) : string := nth i parts EmptyString.

Definition reply_of {A} (r : Result A) (ok : A -> list Event) : list Event :=
  match r with
  | Ok a => ok a
  | Err e => [Say (RError e)]
  end.

(** What a handler does once its arity check has passed. *)
Definition handle (k : Cmd) (parts : list string) (fs : FS) : list Event * FS :=
  let n := arg parts 1 in
  let g := arg parts 2 in
  let t := arg parts 3 in
  match k with
  | KAddUser =>
      let (r, fs') := run_op (add_user n g t) fs in
      (Call (CAddUser n g t) :: reply_of r (fun _ => [Say (RAddedUser n g t)]), fs')
  | KAddGame =>
      let (r, fs') := run_op (add_game n g t) fs in
      (Call (CAddGame n g t) :: reply_of r (fun _ => [Say (RAddedGame g t n)]), fs')
  | KUpdateTotal =>
      let (r, fs') := run_op (update_total n g t) fs in
      (Call (CUpdateTotal n g t) ::
         reply_of r (fun '(new_total, crossed) =>
           Say (RUpdated n g new_total) ::
           (if crossed : bool then [Say (RAlert n g)] else [])), fs')
  | KRemoveGame =>
      let (r, fs') := run_op (remove_game n g) fs in
      (Call (CRemoveGame n g) :: reply_of r (fun _ => [Say (RRemovedGame g n)]), fs')
  | KDeleteUser =>
      let (r, fs') := run_op (delete_user n) fs in
      (Call (CDeleteUser n) :: reply_of r (fun _ => [Say (RDeletedUser n)]), fs')
  | KUserGames =>
      (Call (CUserGames n) ::
         reply_of (run_query (get_user_games n) fs)
           (fun gs => if bool_decide (gs = ∅) then [Say (RNoGames n)]
                      else [Say (RUserGames n gs)]), fs)
  | KGameTotal =>
      (Call (CGameTotal n g) ::
         reply_of (run_query (get_game_total n g) fs)
           (fun total => [Say (RGameTotal n g total)]), fs)
  | KUserTotal =>
      (Call (CUserTotal n) ::
         reply_of (run_query (get_user_total_all_games n) fs)
           (fun total => [Say (RUserTotal n total)]), fs)
  end.

(** [if msg.content.starts_with(keyword) { let parts = ...; if parts.len()
    != n { say(usage); return; } ... }] *)
Definition cmd_block (k : Cmd) (content : string) (evs : list Event) (fs : FS)
    : Flow :=
  if String.prefix (keyword k) content then
    let parts := parse_command_with_quotes content in
    if negb (Nat.eqb (length parts) (arity k)) then
      Return (evs ++ [Say (RUsage k)]) fs
    else
      let (evs', fs') := handle k parts fs in Continue (evs ++ evs') fs'
  else Continue evs fs.

Definition help_block (content : string) (evs : list Event) (fs : FS) : Flow :=
  if String.eqb content "!help" || String.eqb content "!commands" then
    Continue (evs ++ [Say RHelp]) fs
  else Continue evs fs.

Definition quickhelp_block (content : string) (evs : list Event) (fs : FS) : Flow :=
  if String.eqb content "!quickhelp" then Continue (evs ++ [Say RQuickHelp]) fs
  else Continue evs fs.

Definition getusers_block (content : string) (evs : list Event) (fs : FS) : Flow :=
  if String.eqb content "!getusers" then
    match run_query get_users fs with
    | Ok [] => Return (evs ++ [Call CGetUsers; Say RNoUsers]) fs
    | Ok us => Continue (evs ++ [Call CGetUsers; Say (RAllUsers us)]) fs
    | Err e => Continue (evs ++ [Call CGetUsers; Say (RError e)]) fs
    end
  else Continue evs fs.

(** Running the [if] blocks one after the other until one [return]s. *)
Fixpoint run_blocks (bs : list (list Event -> FS -> Flow)) (evs : list Event)
    (fs : FS) : Flow :=
  match bs with
  | [] => Continue evs fs
  | b :: bs' =>
      match b evs fs with
      | Continue evs' fs' => run_blocks bs' evs' fs'
      | Return evs' fs' => Return evs' fs'
      end
  end.

(** The handler body: its [if] blocks in source order. *)
Definition handler_blocks (content : string) : list (list Event -> FS -> Flow) :=
  [help_block content; quickhelp_block content;
   cmd_block KAddUser content; cmd_block KAddGame content;
   cmd_block KUpdateTotal content; cmd_block KRemoveGame content;
   cmd_block KDeleteUser content; cmd_block KUserGames content;
   getusers_block content;
   cmd_block KGameTotal content; cmd_block KUserTotal content].

(** [async fn message(&self, ctx, msg)]: the events it produces (store
    calls and sent messages) and the file system afterwards. *)
Definition message (content : string) (fs : FS) : list Event * FS :=
  match run_blocks (handler_blocks content) [] fs with
  | Continue evs fs' => (evs, fs')
  | Return evs fs' => (evs, fs')
  end.

(* ------------------------------------------------------------------ *)
(** ** Auxiliary definitions for the statements *)

(** Store invariants: unique user names, unique game names per user,
    and no user without a game. *)
Definition users_ok (users : list User) : Prop :=
  NoDup (user <$> users) /\
  Forall (fun u => NoDup ((map_to_list (games u)).*1) /\ games u ≠ ∅) users.

(** Documents reachable from one that loads as the empty collection by
    the five mutating operations (and by changes of write permission). *)
Inductive reachable : FS -> Prop :=
| reach_init fs : load_user_file (doc fs) = [] -> reachable fs
| reach_op fs m : reachable fs -> reachable (snd (run_mut m fs))
| reach_env fs b : reachable fs -> reachable {| doc := doc fs; writable := b |}.

(** The lines compared with [==] in the handler. *)
Definition exact_commands : list string :=
  ["!help"; "!commands"; "!quickhelp"; "!getusers"].

(** The fixed vocabulary of twelve command keywords. *)
Definition command_keywords : list string :=
  exact_commands ++ map keyword
    [KAddUser; KAddGame; KUpdateTotal; KRemoveGame; KDeleteUser;
     KUserGames; KGameTotal; KUserTotal].

Fixpoint spaces (k : nat) : string :=
  match k with
  | O => EmptyString
  | S k' => String space_char (spaces k')
  end.

(** ASCII characters for which Rust's [char::is_whitespace] holds. *)
Definition is_whitespace (c : Ascii.ascii) : bool :=
  List.existsb (fun n => Nat.eqb (Ascii.nat_of_ascii c) n) [9; 10; 11; 12; 13; 32]%nat.

Fixpoint all_whitespace (s : string) : bool :=
  match s with
  | EmptyString => true
  | String c s' => is_whitespace c && all_whitespace s'
  end.

Definition tab_line : string := String (Ascii.ascii_of_nat 9) EmptyString.

Definition quoted (s : string) : string :=
  String quote_char (s ++ String quote_char EmptyString).

Definition fs_empty : FS := {| doc := DocReadError; writable := true |}.

Definition fs_with (n g : string) (total : Z) : FS :=
  {| doc := DocJson [{| user := n; games := {[g := total]} |}]; writable := true |}.

(** The user name a mutating operation is applied to. *)
Definition mut_user (m : MutOp) : string :=
  match m with
  | MAddUser n _ _ | MAddGame n _ _ | MUpdateTotal n _ _
  | MRemoveGame n _ | MDeleteUser n => n
  end.

Definition fs_two_games : FS :=
  {| doc := DocJson [{| user := "Q"; games := <["Halo" := 15]> {["G" := 3]} |}];
     writable := true |}.

(** Whether a character occurs in a string. *)
Fixpoint has_char (c : Ascii.ascii) (s : string) : bool :=
  match s with
  | EmptyString => false
  | String c' s' => Ascii.eqb c' c || has_char c s'
  end.

(** Writing a token back for the tokenizer: quoted when it holds a space. *)
Definition render_token (t : string) : string :=
  if has_char space_char t then quoted t else t.

(** Tokens written back, separated by single spaces. *)
Fixpoint join_tokens (ts : list string) : string :=
  match ts with
  | [] => EmptyString
  | [t] => render_token t
  | t :: ts' => render_token t ++ String space_char (join_tokens ts')
  end.

(** The store calls that go through [save_users_to_file]. *)
Definition is_mut_call (c : StoreCall) : bool :=
  match c with
  | CAddUser _ _ _ | CAddGame _ _ _ | CUpdateTotal _ _ _
  | CRemoveGame _ _ | CDeleteUser _ => true
  | _ => false
  end.

Definition flow_result (f : Flow) : list Event * FS :=
  match f with
  | Continue evs fs => (evs, fs)
  | Return evs fs => (evs, fs)
  end.

(** A block only appends events, and changes the file system only when
    what it appends holds a mutating store call. *)
Definition block_ok (b : list Event -> FS -> Flow) : Prop :=
  forall evs fs, exists more,
    fst (flow_result (b evs fs)) = evs ++ more /\
    (snd (flow_result (b evs fs)) = fs \/
     exists c, is_mut_call c = true /\ Call c ∈ more).

(** Whether an event is a call into the store (user.rs). *)
Definition is_call (e : Event) : bool :=
  match e with
  | Call _ => true
  | Say _ => false
  end.

(* ------------------------------------------------------------------ *)
(** ** Lemmas *)

Lemma parse_loop_nonempty (s : string) : forall iq cur parts,
  Forall (fun t => t <> EmptyString) parts ->
  Forall (fun t => t <> EmptyString) (parse_loop s iq cur parts).
Proof.
  induction s as [|c s IH]; intros iq cur parts Hp; simpl.
  - destruct (String.eqb cur EmptyString) eqn:E; [exact Hp|].
    apply Forall_app; split; [exact Hp|]. constructor; [|constructor].
    intros ->. discriminate E.
  - destruct (Ascii.eqb c quote_char); [apply IH; exact Hp|].
    destruct (Ascii.eqb c space_char && negb iq).
    + destruct (String.eqb cur EmptyString) eqn:E; apply IH; [exact Hp|].
      apply Forall_app; split; [exact Hp|]. constructor; [|constructor].
      intros ->. discriminate E.
    + apply IH; exact Hp.
Qed.

Lemma parse_loop_spaces (k : nat) : forall parts,
  parse_loop (spaces k) false EmptyString parts = parts.
Proof. induction k as [|k IH]; intros parts; [reflexivity|]. simpl. apply IH. Qed.

Lemma find_update_first (n : string) (gs : gmap string Z) (us : list User) :
  find_user n (update_first n (set_games gs) us) =
  set_games gs <$> find_user n us.
Proof.
  induction us as [|u us IH]; [reflexivity|]. unfold find_user in *. simpl.
  destruct (String.eqb (user u) n) eqn:E; simpl; rewrite E; [reflexivity|].
  exact IH.
Qed.

Lemma existsb_user_elem (n : string) (us : list User) :
  List.existsb (fun u => String.eqb (user u) n) us = bool_decide (n ∈ user <$> us).
Proof.
  apply eq_bool_prop_intro. rewrite Is_true_true, List.existsb_exists,
    bool_decide_spec, list_elem_of_fmap.
  split.
  - intros (u & Hin & Heq). apply String.eqb_eq in Heq.
    exists u. split; [done|]. by apply list_elem_of_In.
  - intros (u & -> & Hin). exists u. split; [by apply list_elem_of_In|].
    apply String.eqb_refl.
Qed.

Lemma find_user_app_absent (n : string) (us : list User) (u : User) :
  n ∉ user <$> us -> user u = n -> find_user n (us ++ [u]) = Some u.
Proof.
  intros Hn Hu. induction us as [|v us IH]; unfold find_user in *; simpl.
  - rewrite Hu, String.eqb_refl. reflexivity.
  - destruct (String.eqb (user v) n) eqn:E.
    + apply String.eqb_eq in E. exfalso. apply Hn.
      rewrite fmap_cons, E. apply list_elem_of_here.
    + apply IH. intros H. apply Hn. rewrite fmap_cons.
      apply list_elem_of_further. exact H.
Qed.

Lemma update_first_names (n : string) (gs : gmap string Z) (us : list User) :
  user <$> update_first n (set_games gs) us = user <$> us.
Proof.
  induction us as [|u us IH]; [reflexivity|]. simpl.
  destruct (String.eqb (user u) n); rewrite !fmap_cons; [reflexivity|].
  by rewrite IH.
Qed.

Lemma update_first_Forall (P : User -> Prop) (n : string) (gs : gmap string Z)
    (us : list User) (u0 : User) :
  find_user n us = Some u0 -> Forall P us -> P (set_games gs u0) ->
  Forall P (update_first n (set_games gs) us).
Proof.
  intros Hf Hall HP. induction us as [|u us IH]; [constructor|].
  unfold find_user in Hf. simpl in *. inversion Hall; subst.
  destruct (String.eqb (user u) n).
  - injection Hf as ->. constructor; assumption.
  - constructor; [assumption|]. apply IH; assumption.
Qed.

Lemma elem_of_fmap_filter (p : User -> bool) (x : string) (us : list User) :
  x ∈ user <$> List.filter p us -> x ∈ user <$> us.
Proof.
  rewrite !list_elem_of_fmap. intros (u & -> & Hin). exists u. split; [done|].
  apply list_elem_of_In in Hin. apply List.filter_In in Hin.
  apply list_elem_of_In. tauto.
Qed.

Lemma NoDup_fmap_filter (p : User -> bool) (us : list User) :
  NoDup (user <$> us) -> NoDup (user <$> List.filter p us).
Proof.
  induction us as [|u us IH]; intros Hnd; simpl; [constructor|].
  rewrite fmap_cons in Hnd. apply NoDup_cons in Hnd as [Hnin Hnd].
  destruct (p u); [|by apply IH].
  rewrite fmap_cons. apply NoDup_cons. split; [|by apply IH].
  intros Hin. apply Hnin. eapply elem_of_fmap_filter. exact Hin.
Qed.

Lemma retain_not_ok (n : string) (us : list User) :
  users_ok us -> users_ok (retain_not n us).
Proof.
  intros [Hnd Hall]. split; [by apply NoDup_fmap_filter|].
  rewrite List.Forall_forall in *. intros u Hin.
  apply List.filter_In in Hin. apply Hall. tauto.
Qed.

Lemma retain_update_first (n : string) (gs : gmap string Z) (us : list User) :
  retain_not n (update_first n (set_games gs) us) = retain_not n us.
Proof.
  induction us as [|u us IH]; [reflexivity|]. unfold retain_not in *. simpl.
  destruct (String.eqb (user u) n) eqn:E; simpl; rewrite E; simpl;
    [reflexivity|by rewrite IH].
Qed.

Lemma mut_op_ok (m : MutOp) (us us' : list User) :
  users_ok us -> mut_op m us = Commit us' tt -> users_ok us'.
Proof.
  intros Hok Hm. pose proof Hok as [Hnd Hall].
  destruct m as [n g t|n g t|n g t|n g|n]; simpl in Hm.
  - (* add_user *)
    unfold add_user in Hm. destruct (parse_i32 t) as [v|]; [|discriminate].
    rewrite existsb_user_elem in Hm.
    destruct (bool_decide (n ∈ user <$> us)) eqn:E; [discriminate|].
    injection Hm as <-. apply bool_decide_eq_false in E. split.
    + rewrite fmap_app, fmap_cons, fmap_nil. simpl.
      apply NoDup_app. split; [done|]. split; [|apply NoDup_singleton].
      intros x Hx Hx'. apply list_elem_of_singleton in Hx' as ->. done.
    + apply Forall_app. split; [done|]. constructor; [|constructor]. simpl.
      split; [apply NoDup_fst_map_to_list|apply map_non_empty_singleton].
  - (* add_game *)
    unfold add_game in Hm. destruct (parse_i32 t) as [v|]; [|discriminate].
    destruct (find_user n us) as [u|] eqn:F; [|discriminate].
    destruct (bool_decide (is_Some (games u !! g))); [discriminate|].
    injection Hm as <-. split; [by rewrite update_first_names|].
    eapply update_first_Forall; [exact F|exact Hall|]. simpl.
    split; [apply NoDup_fst_map_to_list|apply insert_non_empty].
  - (* update_total *)
    unfold update_total in Hm. destruct (parse_i32 t) as [v|]; [|discriminate].
    destruct (find_user n us) as [u|] eqn:F; [|discriminate].
    destruct (games u !! g) as [old|]; [|discriminate].
    injection Hm as <-. split; [by rewrite update_first_names|].
    eapply update_first_Forall; [exact F|exact Hall|]. simpl.
    split; [apply NoDup_fst_map_to_list|apply insert_non_empty].
  - (* remove_game *)
    unfold remove_game in Hm.
    destruct (find_user n us) as [u|] eqn:F; [|discriminate].
    destruct (games u !! g) as [old|]; [|discriminate].
    destruct (bool_decide (delete g (games u) = ∅)) eqn:E;
      injection Hm as <-.
    + (* the user left without games is dropped by [retain] *)
      rewrite retain_update_first. by apply retain_not_ok.
    + apply bool_decide_eq_false in E.
      split; [by rewrite update_first_names|].
      eapply update_first_Forall; [exact F|exact Hall|]. simpl.
      split; [apply NoDup_fst_map_to_list|exact E].
  - (* delete_user *)
    unfold delete_user in Hm.
    destruct (Nat.ltb _ _); [|discriminate].
    injection Hm as <-. by apply retain_not_ok.
Qed.

Lemma run_mut_ok (m : MutOp) (fs : FS) :
  users_ok (load_user_file (doc fs)) ->
  users_ok (load_user_file (doc (snd (run_mut m fs)))).
Proof.
  intros Hok. unfold run_mut, run_op.
  destruct (mut_op m (load_user_file (doc fs))) as [e|us' []] eqn:Hm; [exact Hok|].
  unfold save_users_to_file. destruct (writable fs); simpl; [|exact Hok].
  eapply mut_op_ok; [exact Hok|exact Hm].
Qed.

Lemma prefix_app_inv (p s : string) :
  String.prefix p s = true -> exists r, s = (p ++ r)%string.
Proof.
  revert s. induction p as [|a p IH]; intros s H; [by exists s|].
  destruct s as [|b s]; simpl in H; [discriminate|].
  destruct (Ascii.ascii_dec a b) as [->|]; [|discriminate].
  destruct (IH s H) as [r ->]. by exists r.
Qed.

Lemma run_blocks_skip_cons (b : list Event -> FS -> Flow) bs evs fs :
  b evs fs = Continue evs fs -> run_blocks (b :: bs) evs fs = run_blocks bs evs fs.
Proof. intros H. simpl. by rewrite H. Qed.

Lemma run_blocks_return_cons (b : list Event -> FS -> Flow) bs evs fs evs' fs' :
  b evs fs = Return evs' fs' -> run_blocks (b :: bs) evs fs = Return evs' fs'.
Proof. intros H. simpl. by rewrite H. Qed.

Lemma cmd_block_usage (k : Cmd) (content : string) evs fs :
  String.prefix (keyword k) content = true ->
  length (parse_command_with_quotes content) <> arity k ->
  cmd_block k content evs fs = Return (evs ++ [Say (RUsage k)]) fs.
Proof.
  intros Hp Hn. unfold cmd_block. rewrite Hp.
  apply Nat.eqb_neq in Hn. by rewrite Hn.
Qed.

Lemma eqb_false_of_not_in (c x : string) (l : list string) :
  c ∉ l -> x ∈ l -> String.eqb c x = false.
Proof. intros Hn Hx. apply String.eqb_neq. intros ->. contradiction. Qed.

Lemma wrap32_small (z : Z) : I32_MIN <= z <= I32_MAX -> wrap32 z = z.
Proof.
  unfold I32_MIN, I32_MAX, wrap32. intros H.
  rewrite Z.mod_small; [lia|]. change (2 ^ 32) with (2 ^ 31 * 2). lia.
Qed.

(** Success of [update_total]: the stored total becomes the returned one. *)
Lemma update_total_success (fs fs' : FS) (n g t : string) (old nt : Z) (b : bool) :
  run_query (get_game_total n g) fs = Ok old ->
  run_op (update_total n g t) fs = (Ok (nt, b), fs') ->
  exists d, parse_i32 t = Some d /\ nt = wrap32 (old + d) /\
    b = (old <? 300) && (300 <=? nt) /\
    run_query (get_game_total n g) fs' = Ok nt.
Proof.
  unfold run_query, get_game_total, run_op, update_total.
  intros Hg Hu. destruct (find_user n (load_user_file (doc fs))) as [u|] eqn:F;
    [|discriminate].
  destruct (games u !! g) as [o|] eqn:G; [|discriminate]. injection Hg as ->.
  destruct (parse_i32 t) as [d|]; [|discriminate]. rewrite ?F, ?G in Hu.
  unfold save_users_to_file in Hu. destruct (writable fs); [|discriminate].
  injection Hu as <- <- <-. exists d. simpl.
  rewrite find_update_first, F. simpl. rewrite lookup_insert_eq. done.
Qed.

(* ------------------------------------------------------------------ *)
(** ** Claims *)

(** C1. When [update_total] succeeds on a user who owns the game, the
    flag [crossed_threshold] it returns is true exactly when the total
    before the update is below 300 and the total after it (the one now
    stored and returned) is at least 300. *)
Theorem update_total_crossed_threshold (fs fs' : FS) (n g t : string)
    (old nt : Z) (b : bool) :
  run_query (get_game_total n g) fs = Ok old ->
  run_op (update_total n g t) fs = (Ok (nt, b), fs') ->
  run_query (get_game_total n g) fs' = Ok nt /\
  (b = true <-> old < 300 /\ 300 <= nt).
Proof.
  intros Hg Hu. destruct (update_total_success _ _ _ _ _ _ _ _ Hg Hu)
    as (d & _ & _ & -> & Hnt). split; [exact Hnt|].
  rewrite andb_true_iff, Z.ltb_lt, Z.leb_le. reflexivity.
Qed.

Lemma update_total_crossed_threshold_witness :
  (run_query (get_game_total "Q" "Tekken 8") (fs_with "Q" "Tekken 8" 290) = Ok 290 /\
   run_op (update_total "Q" "Tekken 8" "20") (fs_with "Q" "Tekken 8" 290) =
     (Ok (310, true), fs_with "Q" "Tekken 8" 310)) /\
  (run_query (get_game_total "Q" "Tekken 8") (fs_with "Q" "Tekken 8" 310) = Ok 310 /\
   (true = true <-> 290 < 300 /\ 300 <= 310)).
Proof.
  assert (H1 : run_query (get_game_total "Q" "Tekken 8")
                 (fs_with "Q" "Tekken 8" 290) = Ok 290) by reflexivity.
  assert (H2 : run_op (update_total "Q" "Tekken 8" "20") (fs_with "Q" "Tekken 8" 290)
                 = (Ok (310, true), fs_with "Q" "Tekken 8" 310))
    by (vm_compute; reflexivity).
  split; [split; assumption|].
  exact (update_total_crossed_threshold _ _ _ _ _ _ _ _ H1 H2).
Defined.

(** The threshold sequence of the spec: 250 + 40, then + 20, then + 10. *)
Example update_total_threshold_sequence :
  run_op (update_total "Q" "Tekken 8" "40") (fs_with "Q" "Tekken 8" 250) =
    (Ok (290, false), fs_with "Q" "Tekken 8" 290) /\
  run_op (update_total "Q" "Tekken 8" "20") (fs_with "Q" "Tekken 8" 290) =
    (Ok (310, true), fs_with "Q" "Tekken 8" 310) /\
  run_op (update_total "Q" "Tekken 8" "10") (fs_with "Q" "Tekken 8" 310) =
    (Ok (320, false), fs_with "Q" "Tekken 8" 320).
Proof. vm_compute. repeat split. Qed.

(** C2 (counterexample).  A line holding only a tab, which is whitespace,
    is not tokenized to the empty sequence: the loop splits only on
    [' '], so the tab becomes a token. *)
Lemma parse_command_with_quotes_tab_line :
  all_whitespace tab_line = true /\
  parse_command_with_quotes tab_line = [tab_line].
Proof. split; reflexivity. Qed.

(** C2 (as amended).  No token produced by [parse_command_with_quotes] is
    empty; a line made of spaces only (any number, including none) gives
    no token; and the examples of the spec. *)
Theorem parse_command_with_quotes_spec :
  (forall s, Forall (fun t => t <> EmptyString) (parse_command_with_quotes s)) /\
  (forall k, parse_command_with_quotes (spaces k) = []) /\
  parse_command_with_quotes ("!adduser Q " ++ quoted "Tekken 8" ++ " 200") =
    ["!adduser"; "Q"; "Tekken 8"; "200"] /\
  parse_command_with_quotes "" = [] /\
  parse_command_with_quotes "a  b" = ["a"; "b"].
Proof.
  split; [intros s; apply parse_loop_nonempty; constructor|].
  split; [intros k; apply parse_loop_spaces|].
  repeat split; reflexivity.
Qed.

(** C3. [add_user] fails with [InvalidNumber] when the total does not parse
    as an [i32] (whatever the collection), else with [AlreadyExists] when
    the name is taken, and otherwise appends a user whose games map is the
    single entry [game := total] and saves the collection (a failed write
    is reported as [PersistenceFailure]). *)
Theorem add_user_outcome (n g t : string) (fs : FS) :
  run_op (add_user n g t) fs =
  match parse_i32 t with
  | None => (Err InvalidNumber, fs)
  | Some v =>
      if bool_decide (n ∈ user <$> load_user_file (doc fs)) then
        (Err AlreadyExists, fs)
      else if writable fs then
        (Ok tt, {| doc := DocJson (load_user_file (doc fs) ++
                                    [{| user := n; games := {[g := v]} |}]);
                   writable := true |})
      else (Err PersistenceFailure, fs)
  end.
Proof.
  unfold run_op, add_user. destruct (parse_i32 t) as [v|]; [|reflexivity].
  rewrite existsb_user_elem.
  destruct (bool_decide (n ∈ user <$> load_user_file (doc fs))); [reflexivity|].
  unfold save_users_to_file. by destruct (writable fs).
Qed.

(** C5. [load_user_file] returns a collection in every case: the empty one
    when the file cannot be read, is empty, or does not parse. *)
Theorem load_user_file_fallback :
  load_user_file DocReadError = [] /\
  load_user_file DocEmpty = [] /\
  (forall raw, load_user_file (DocMalformed raw) = []) /\
  (forall users, load_user_file (DocJson users) = users).
Proof. repeat split. Qed.

(** C4. In every document reachable from the empty collection through the
    mutating store operations, user names are unique, game names are
    unique within each user, and every user owns at least one game (so
    [remove_game] of a user's last game drops that user in the same save). *)
Theorem reachable_users_ok (fs : FS) :
  reachable fs -> users_ok (load_user_file (doc fs)).
Proof.
  induction 1 as [fs Hempty|fs m _ IH|fs b _ IH].
  - rewrite Hempty. split; constructor.
  - by apply run_mut_ok.
  - exact IH.
Qed.

Lemma reachable_users_ok_witness :
  reachable (snd (run_mut (MRemoveGame "Q" "G")
                   (snd (run_mut (MAddUser "Q" "G" "5") fs_empty)))) /\
  users_ok (load_user_file (doc (snd (run_mut (MRemoveGame "Q" "G")
                   (snd (run_mut (MAddUser "Q" "G" "5") fs_empty)))))).
Proof.
  assert (H : reachable (snd (run_mut (MRemoveGame "Q" "G")
                   (snd (run_mut (MAddUser "Q" "G" "5") fs_empty))))).
  { apply reach_op, reach_op, reach_init. reflexivity. }
  split; [exact H|]. exact (reachable_users_ok _ H).
Defined.

(** C6 (counterexample).  With a stored total of [i32::MAX], adding 1
    does not give the mathematical sum: the [i32] addition overflows (it
    wraps to [i32::MIN] here; a debug build panics). *)
Lemma update_total_overflow :
  run_query (get_game_total "Q" "G") (fs_with "Q" "G" 2147483647) = Ok 2147483647 /\
  parse_i32 "1" = Some 1 /\
  run_op (update_total "Q" "G" "1") (fs_with "Q" "G" 2147483647) =
    (Ok (-2147483648, false), fs_with "Q" "G" (-2147483648)) /\
  -2147483648 <> 2147483647 + 1.
Proof. vm_compute. repeat split. discriminate. Qed.

(** C6 (as amended).  When [update_total] succeeds, the new total is the
    [i32] sum of the previous total and the parsed delta (of either sign),
    stored and returned; it is the exact sum whenever that lies in the
    [i32] range. *)
Theorem update_total_sum (fs fs' : FS) (n g t : string) (old d nt : Z) (b : bool) :
  run_query (get_game_total n g) fs = Ok old ->
  parse_i32 t = Some d ->
  run_op (update_total n g t) fs = (Ok (nt, b), fs') ->
  run_query (get_game_total n g) fs' = Ok nt /\
  nt = wrap32 (old + d) /\
  (I32_MIN <= old + d <= I32_MAX -> nt = old + d).
Proof.
  intros Hg Hp Hu. destruct (update_total_success _ _ _ _ _ _ _ _ Hg Hu)
    as (d' & Hp' & Hnt & _ & Hq). rewrite Hp in Hp'. injection Hp' as <-.
  split; [exact Hq|]. split; [exact Hnt|]. intros Hr. subst nt.
  by apply wrap32_small.
Qed.

Lemma update_total_sum_witness :
  (run_query (get_game_total "Q" "Tekken 8") (fs_with "Q" "Tekken 8" 250) = Ok 250 /\
   parse_i32 "-40" = Some (-40) /\
   run_op (update_total "Q" "Tekken 8" "-40") (fs_with "Q" "Tekken 8" 250) =
     (Ok (210, false), fs_with "Q" "Tekken 8" 210)) /\
  (run_query (get_game_total "Q" "Tekken 8") (fs_with "Q" "Tekken 8" 210) = Ok 210 /\
   210 = wrap32 (250 + -40) /\
   (I32_MIN <= 250 + -40 <= I32_MAX -> 210 = 250 + -40)).
Proof.
  assert (H1 : run_query (get_game_total "Q" "Tekken 8")
                 (fs_with "Q" "Tekken 8" 250) = Ok 250) by reflexivity.
  assert (H2 : parse_i32 "-40" = Some (-40)) by reflexivity.
  assert (H3 : run_op (update_total "Q" "Tekken 8" "-40") (fs_with "Q" "Tekken 8" 250)
                 = (Ok (210, false), fs_with "Q" "Tekken 8" 210))
    by (vm_compute; reflexivity).
  split; [repeat split; assumption|].
  exact (update_total_sum _ _ _ _ _ _ _ _ _ H1 H2 H3).
Defined.

(** C9. After a successful [add_user n g t] on a collection without [n],
    [get_game_total n g] returns the integer parsed from [t]. *)
Theorem add_user_get_game_total (n g t : string) (fs fs' : FS) :
  n ∉ user <$> load_user_file (doc fs) ->
  run_op (add_user n g t) fs = (Ok tt, fs') ->
  exists v, parse_i32 t = Some v /\ run_query (get_game_total n g) fs' = Ok v.
Proof.
  intros Hn Hok. unfold run_op, add_user in Hok.
  destruct (parse_i32 t) as [v|]; [|discriminate]. exists v. split; [done|].
  rewrite existsb_user_elem, bool_decide_eq_false_2 in Hok by exact Hn.
  unfold save_users_to_file in Hok. destruct (writable fs); [|discriminate].
  injection Hok as <-. unfold run_query, get_game_total. simpl.
  rewrite find_user_app_absent by done. simpl. by rewrite lookup_singleton_eq.
Qed.

Lemma add_user_get_game_total_witness :
  (("Q" ∉ (user <$> load_user_file (doc fs_empty))) /\
   run_op (add_user "Q" "Tekken 8" "200") fs_empty = (Ok tt, fs_with "Q" "Tekken 8" 200)) /\
  exists v, parse_i32 "200" = Some v /\
    run_query (get_game_total "Q" "Tekken 8") (fs_with "Q" "Tekken 8" 200) = Ok v.
Proof.
  assert (H1 : "Q" ∉ user <$> load_user_file (doc fs_empty)).
  { simpl. apply not_elem_of_nil. }
  assert (H2 : run_op (add_user "Q" "Tekken 8" "200") fs_empty
                 = (Ok tt, fs_with "Q" "Tekken 8" 200)) by (vm_compute; reflexivity).
  split; [split; assumption|].
  exact (add_user_get_game_total _ _ _ _ _ H1 H2).
Defined.

(** C10. When a mutating operation returns any error other than a failed
    write, it returned before reaching [save_users_to_file] and the file
    system is exactly as before the call. *)
Theorem run_mut_validation_atomic (m : MutOp) (fs fs' : FS) (e : StoreError) :
  run_mut m fs = (Err e, fs') -> e <> PersistenceFailure ->
  mut_op m (load_user_file (doc fs)) = Early e /\ fs' = fs.
Proof.
  unfold run_mut, run_op. intros Hr He.
  destruct (mut_op m (load_user_file (doc fs))) as [e'|us v].
  - injection Hr as -> ->. done.
  - unfold save_users_to_file in Hr. destruct (writable fs).
    + discriminate.
    + injection Hr as <- _. contradiction.
Qed.

Lemma run_mut_validation_atomic_witness :
  (run_mut (MAddGame "Q" "Halo" "12") (fs_with "Q" "Halo" 7) =
     (Err GameAlreadyExists, fs_with "Q" "Halo" 7) /\
   GameAlreadyExists <> PersistenceFailure) /\
  (mut_op (MAddGame "Q" "Halo" "12") (load_user_file (doc (fs_with "Q" "Halo" 7)))
     = Early GameAlreadyExists /\ fs_with "Q" "Halo" 7 = fs_with "Q" "Halo" 7).
Proof.
  assert (H1 : run_mut (MAddGame "Q" "Halo" "12") (fs_with "Q" "Halo" 7) =
                 (Err GameAlreadyExists, fs_with "Q" "Halo" 7))
    by (vm_compute; reflexivity).
  assert (H2 : GameAlreadyExists <> PersistenceFailure) by discriminate.
  split; [split; assumption|].
  exact (run_mut_validation_atomic _ _ _ _ H1 H2).
Defined.

(** C7 (counterexample).  The first token of [!adduserX Q G 5] is not one
    of the twelve keywords, yet the line starts with [!adduser], so the
    add-user handler runs and calls [add_user]. *)
Lemma message_prefix_dispatch :
  head (parse_command_with_quotes "!adduserX Q G 5") = Some "!adduserX" /\
  ("!adduserX" ∉ command_keywords) /\
  Call (CAddUser "Q" "G" "5") ∈ fst (message "!adduserX Q G 5" fs_empty).
Proof.
  split; [reflexivity|]. split.
  - unfold command_keywords, exact_commands. simpl.
    repeat (apply not_elem_of_cons; split; [discriminate|]).
    apply not_elem_of_nil.
  - vm_compute. apply list_elem_of_here.
Qed.

(** C7 (as amended).  A line that is none of [!help], [!commands],
    [!quickhelp], [!getusers] and does not start with any of the eight
    argument keywords runs no handler: no store call, no reply, and the
    file system is untouched. *)
Theorem message_unrecognised (content : string) (fs : FS) :
  content ∉ exact_commands ->
  (forall k, String.prefix (keyword k) content = false) ->
  message content fs = ([], fs).
Proof.
  intros Hx Hp.
  assert (He : forall x, x ∈ exact_commands -> String.eqb content x = false).
  { intros x. by apply eqb_false_of_not_in. }
  unfold message, handler_blocks.
  repeat (rewrite run_blocks_skip_cons; [|
    first [ unfold help_block; rewrite !He; [reflexivity|..]
          | unfold quickhelp_block; rewrite !He; [reflexivity|..]
          | unfold getusers_block; rewrite !He; [reflexivity|..]
          | unfold cmd_block; rewrite Hp; reflexivity ];
    unfold exact_commands; apply list_elem_of_In; simpl; tauto]).
  reflexivity.
Qed.

Lemma message_unrecognised_witness :
  (("hello there" ∉ exact_commands) /\
   (forall k, String.prefix (keyword k) "hello there" = false)) /\
  message "hello there" fs_empty = ([], fs_empty).
Proof.
  assert (H1 : "hello there" ∉ exact_commands).
  { unfold exact_commands.
    repeat (apply not_elem_of_cons; split; [discriminate|]).
    apply not_elem_of_nil. }
  assert (H2 : forall k, String.prefix (keyword k) "hello there" = false).
  { intros []; reflexivity. }
  split; [split; assumption|].
  exact (message_unrecognised _ _ H1 H2).
Defined.

(** The four commands matched by [==] on the whole line are one token
    each, so their token count always equals their arity 1. *)
Lemma exact_commands_single_token (c : string) :
  c ∈ exact_commands -> length (parse_command_with_quotes c) = 1%nat.
Proof.
  unfold exact_commands. rewrite list_elem_of_In. simpl.
  intros [<-|[<-|[<-|[<-|[]]]]]; reflexivity.
Qed.

(** A line that no block of the handler selects produces nothing. *)
Lemma message_skip_all (content : string) (fs : FS) :
  content ∉ exact_commands ->
  (forall k, String.prefix (keyword k) content = false) ->
  message content fs = ([], fs).
Proof.
  intros Hx Hp.
  assert (He : forall x, x ∈ exact_commands -> String.eqb content x = false).
  { intros x. by apply eqb_false_of_not_in. }
  unfold message, handler_blocks.
  repeat (rewrite run_blocks_skip_cons; [|
    first [ unfold help_block; rewrite !He; [reflexivity|..]
          | unfold quickhelp_block; rewrite !He; [reflexivity|..]
          | unfold getusers_block; rewrite !He; [reflexivity|..]
          | unfold cmd_block; rewrite Hp; reflexivity ];
    unfold exact_commands; apply list_elem_of_In; simpl; tauto]).
  reflexivity.
Qed.

(** The line [!getusers x]: its first token is the whole-line command
    [!getusers], of arity 1, and it has 2 tokens, yet it gets no usage
    reply: the handler sends nothing and calls no store function. *)
Lemma message_getusers_extra_token :
  head (parse_command_with_quotes "!getusers x") = Some "!getusers" /\
  length (parse_command_with_quotes "!getusers x") = 2%nat /\
  message "!getusers x" (fs_with "Q" "G" 1) = ([], fs_with "Q" "G" 1).
Proof. split; [reflexivity|]. split; [reflexivity|]. vm_compute. reflexivity. Qed.

(** C8 (as amended).  A line selected by one of the eight argument
    commands (its raw text starts with the keyword) whose token count
    differs from that command's arity gets exactly that command's usage
    reply, with no store call and the file system unchanged.  The four
    whole-line commands have no usage reply: a line made of one of them,
    a space and any further text, and any line starting with a space, gets
    no reply at all, no store call, and leaves the file system unchanged. *)
Theorem message_arity_mismatch :
  (forall (k : Cmd) (content : string) (fs : FS),
     String.prefix (keyword k) content = true ->
     length (parse_command_with_quotes content) <> arity k ->
     message content fs = ([Say (RUsage k)], fs)) /\
  (forall (c r : string) (fs : FS),
     c ∈ exact_commands ->
     message (c ++ String space_char r) fs = ([], fs)) /\
  (forall (r : string) (fs : FS),
     message (String space_char r) fs = ([], fs)).
Proof.
  split; [|split].
  - intros k content fs Hk Hn. destruct (prefix_app_inv _ _ Hk) as [r Hc].
    unfold message, handler_blocks.
    destruct k;
      repeat (rewrite run_blocks_skip_cons by (rewrite Hc; reflexivity));
      (erewrite run_blocks_return_cons by (apply cmd_block_usage; assumption));
      reflexivity.
  - intros c r fs Hc. apply message_skip_all.
    + unfold exact_commands in *. rewrite list_elem_of_In in Hc. simpl in Hc.
      destruct Hc as [<-|[<-|[<-|[<-|[]]]]];
        repeat (apply not_elem_of_cons; split; [intros H; vm_compute in H; discriminate H|]);
        apply not_elem_of_nil.
    + unfold exact_commands in Hc. rewrite list_elem_of_In in Hc. simpl in Hc.
      intros k. destruct Hc as [<-|[<-|[<-|[<-|[]]]]]; destruct k; reflexivity.
  - intros r fs. apply message_skip_all.
    + unfold exact_commands.
      repeat (apply not_elem_of_cons; split; [discriminate|]).
      apply not_elem_of_nil.
    + intros []; reflexivity.
Qed.

Lemma message_arity_mismatch_witness :
  ((String.prefix (keyword KAddUser) ("!adduser Q " ++ quoted "Tekken 8") = true /\
    length (parse_command_with_quotes ("!adduser Q " ++ quoted "Tekken 8")) <> arity KAddUser) /\
   message ("!adduser Q " ++ quoted "Tekken 8") (fs_with "Q" "G" 1) =
     ([Say (RUsage KAddUser)], fs_with "Q" "G" 1)) /\
  ("!getusers" ∈ exact_commands /\
   message ("!getusers" ++ String space_char "x") (fs_with "Q" "G" 1) =
     ([], fs_with "Q" "G" 1)) /\
  message (String space_char "!adduser Q G") (fs_with "Q" "G" 1) =
    ([], fs_with "Q" "G" 1).
Proof.
  assert (H1 : String.prefix (keyword KAddUser) ("!adduser Q " ++ quoted "Tekken 8") = true)
    by reflexivity.
  assert (H2 : length (parse_command_with_quotes ("!adduser Q " ++ quoted "Tekken 8"))
                 <> arity KAddUser) by (vm_compute; discriminate).
  assert (H3 : "!getusers" ∈ exact_commands).
  { unfold exact_commands. apply list_elem_of_In. simpl. tauto. }
  destruct message_arity_mismatch as (A & B & C).
  split; [split; [split; assumption|exact (A _ _ _ H1 H2)]|].
  split; [split; [exact H3|exact (B _ _ _ H3)]|].
  exact (C _ _).
Defined.


(* ------------------------------------------------------------------ *)
(** ** Further properties of the store *)

Lemma run_op_ok_inv {A} (op : list User -> Outcome A) (fs fs' : FS) (v : A) :
  run_op op fs = (Ok v, fs') ->
  op (load_user_file (doc fs)) = Commit (load_user_file (doc fs')) v /\
  writable fs = true /\
  fs' = {| doc := DocJson (load_user_file (doc fs')); writable := true |}.
Proof.
  unfold run_op. destruct (op (load_user_file (doc fs))) as [e|us w]; [discriminate|].
  unfold save_users_to_file. destruct (writable fs) eqn:W; [|discriminate].
  intros H. injection H as -> <-. done.
Qed.

Lemma find_user_update_other (n n' : string) (gs : gmap string Z) (us : list User) :
  n <> n' -> find_user n' (update_first n (set_games gs) us) = find_user n' us.
Proof.
  intros Hne. induction us as [|u us IH]; [reflexivity|]. unfold find_user in *. simpl.
  destruct (String.eqb (user u) n) eqn:E; simpl; [|by rewrite IH].
  apply String.eqb_eq in E. rewrite E.
  destruct (String.eqb n n') eqn:E'; [apply String.eqb_eq in E'; contradiction|].
  reflexivity.
Qed.

Lemma find_user_retain_other (n n' : string) (us : list User) :
  n <> n' -> find_user n' (retain_not n us) = find_user n' us.
Proof.
  intros Hne. induction us as [|u us IH]; [reflexivity|].
  unfold find_user, retain_not in *. simpl.
  destruct (String.eqb (user u) n) eqn:E; simpl.
  - rewrite IH. apply String.eqb_eq in E. rewrite E.
    destruct (String.eqb n n') eqn:E'; [apply String.eqb_eq in E'; contradiction|].
    reflexivity.
  - by rewrite IH.
Qed.

Lemma find_user_retain_same (n : string) (us : list User) :
  find_user n (retain_not n us) = None.
Proof.
  induction us as [|u us IH]; [reflexivity|]. unfold find_user, retain_not in *. simpl.
  destruct (String.eqb (user u) n) eqn:E; simpl; [exact IH|]. by rewrite E.
Qed.

Lemma find_user_app_other (n' : string) (us : list User) (u : User) :
  user u <> n' -> find_user n' (us ++ [u]) = find_user n' us.
Proof.
  intros Hne. induction us as [|v us IH]; unfold find_user in *; simpl.
  - destruct (String.eqb (user u) n') eqn:E; [apply String.eqb_eq in E; contradiction|].
    reflexivity.
  - destruct (String.eqb (user v) n'); [reflexivity|exact IH].
Qed.

Lemma retain_not_absent (n : string) (us : list User) :
  n ∉ user <$> us -> retain_not n us = us.
Proof.
  induction us as [|u us IH]; intros Hn; [reflexivity|]. unfold retain_not in *. simpl.
  rewrite fmap_cons in Hn. apply not_elem_of_cons in Hn as [Hu Hn].
  destruct (String.eqb (user u) n) eqn:E.
  - apply String.eqb_eq in E. congruence.
  - simpl. by rewrite IH.
Qed.

Lemma retain_not_present_length (n : string) (us : list User) :
  n ∈ user <$> us -> (length (retain_not n us) < length us)%nat.
Proof.
  unfold retain_not. induction us as [|u us IH]; intros Hn.
  - apply not_elem_of_nil in Hn. contradiction.
  - simpl. rewrite fmap_cons in Hn. apply elem_of_cons in Hn.
    destruct (String.eqb (user u) n) eqn:E; simpl.
    + pose proof (List.filter_length_le
        (fun u => negb (String.eqb (user u) n)) us). lia.
    + destruct Hn as [Hn|Hn].
      * subst. rewrite String.eqb_refl in E. discriminate.
      * specialize (IH Hn). lia.
Qed.

Lemma update_first_twice (n : string) (gs1 gs2 : gmap string Z) (us : list User) :
  update_first n (set_games gs2) (update_first n (set_games gs1) us) =
  update_first n (set_games gs2) us.
Proof.
  induction us as [|u us IH]; [reflexivity|]. simpl.
  destruct (String.eqb (user u) n) eqn:E; simpl; rewrite E; [reflexivity|].
  by rewrite IH.
Qed.

Lemma update_first_same (n : string) (us : list User) (u : User) :
  find_user n us = Some u -> update_first n (set_games (games u)) us = us.
Proof.
  induction us as [|v us IH]; intros Hf; [reflexivity|]. unfold find_user in Hf.
  simpl in *. destruct (String.eqb (user v) n).
  - injection Hf as <-. by destruct v.
  - f_equal. by apply IH.
Qed.

Lemma find_user_in (n : string) (us : list User) (u : User) :
  find_user n us = Some u -> In u us /\ user u = n.
Proof.
  unfold find_user. intros H. apply List.find_some in H as [Hin He].
  apply String.eqb_eq in He. done.
Qed.

(** Adding a game stores the parsed total under that game and leaves the
    user's other games as they were. *)
Theorem add_game_lookup (n g t : string) (fs fs' : FS) :
  run_op (add_game n g t) fs = (Ok tt, fs') ->
  exists v, parse_i32 t = Some v /\
    run_query (get_game_total n g) fs' = Ok v /\
    (forall g', g' <> g ->
       run_query (get_game_total n g') fs' = run_query (get_game_total n g') fs).
Proof.
  intros H. apply run_op_ok_inv in H as [H _]. unfold add_game in H.
  destruct (parse_i32 t) as [v|]; [|discriminate]. exists v. split; [done|].
  destruct (find_user n (load_user_file (doc fs))) as [u|] eqn:F; [|discriminate].
  destruct (bool_decide _); [discriminate|]. injection H as H.
  unfold run_query, get_game_total. rewrite <- H, find_update_first, F. simpl.
  split; [by rewrite lookup_insert_eq|].
  intros g' Hg. by rewrite lookup_insert_ne by congruence.
Qed.

Lemma add_game_lookup_witness :
  run_op (add_game "Q" "Halo" "15") (fs_with "Q" "G" 3) = (Ok tt, fs_two_games) /\
  exists v, parse_i32 "15" = Some v /\
    run_query (get_game_total "Q" "Halo") fs_two_games = Ok v /\
    (forall g', g' <> "Halo" ->
       run_query (get_game_total "Q" g') fs_two_games =
       run_query (get_game_total "Q" g') (fs_with "Q" "G" 3)).
Proof.
  assert (H : run_op (add_game "Q" "Halo" "15") (fs_with "Q" "G" 3) =
                (Ok tt, fs_two_games)) by (vm_compute; reflexivity).
  split; [exact H|]. exact (add_game_lookup _ _ _ _ _ H).
Defined.

(** [remove_game] deletes the game from the user's map; when that leaves
    the map empty, the user is gone from the collection. *)
Theorem remove_game_effect (n g : string) (gs : gmap string Z) (fs fs' : FS) :
  run_query (get_user_games n) fs = Ok gs ->
  run_op (remove_game n g) fs = (Ok tt, fs') ->
  is_Some (gs !! g) /\
  run_query (get_user_games n) fs' =
    (if bool_decide (delete g gs = ∅) then Err UserNotFound else Ok (delete g gs)).
Proof.
  intros Hq H. apply run_op_ok_inv in H as [H _].
  unfold run_query, get_user_games in *.
  destruct (find_user n (load_user_file (doc fs))) as [u|] eqn:F; [|discriminate].
  injection Hq as <-. unfold remove_game in H. rewrite F in H.
  destruct (games u !! g) as [x|] eqn:G; [|discriminate]. split; [by exists x|].
  destruct (bool_decide (delete g (games u) = ∅)); injection H as H; rewrite <- H.
  - by rewrite find_user_retain_same.
  - by rewrite find_update_first, F.
Qed.

Lemma remove_game_effect_witness :
  (run_query (get_user_games "Q") (fs_with "Q" "G" 3) = Ok {["G" := 3]} /\
   run_op (remove_game "Q" "G") (fs_with "Q" "G" 3) =
     (Ok tt, {| doc := DocJson []; writable := true |})) /\
  (is_Some (({["G" := 3]} : gmap string Z) !! "G") /\
   run_query (get_user_games "Q") {| doc := DocJson []; writable := true |} =
     (if bool_decide (delete "G" ({["G" := 3]} : gmap string Z) = ∅)
      then Err UserNotFound else Ok (delete "G" {["G" := 3]}))).
Proof.
  assert (H1 : run_query (get_user_games "Q") (fs_with "Q" "G" 3) = Ok {["G" := 3]})
    by reflexivity.
  assert (H2 : run_op (remove_game "Q" "G") (fs_with "Q" "G" 3) =
     (Ok tt, {| doc := DocJson []; writable := true |})) by (vm_compute; reflexivity).
  split; [split; assumption|]. exact (remove_game_effect _ _ _ _ _ H1 H2).
Defined.

Lemma delete_user_eq (n : string) (us : list User) :
  delete_user n us =
    if bool_decide (n ∈ user <$> us) then Commit (retain_not n us) tt
    else Early UserNotFound.
Proof.
  unfold delete_user. case_bool_decide as Hn.
  - apply retain_not_present_length in Hn. apply Nat.ltb_lt in Hn. by rewrite Hn.
  - rewrite retain_not_absent by exact Hn. by rewrite Nat.ltb_irrefl.
Qed.

(** [delete_user] fails with [UserNotFound] exactly when no user has the
    name; otherwise it saves the collection without every user of that
    name, the others kept in order. *)
Theorem delete_user_outcome (n : string) (us : list User) :
  delete_user n us =
    if bool_decide (n ∈ user <$> us) then Commit (retain_not n us) tt
    else Early UserNotFound.
Proof. exact (delete_user_eq n us). Qed.

(** Deleting a user just added restores the collection that was loaded
    before the addition. *)
Theorem add_user_delete_user (n g t : string) (fs fs1 : FS) :
  run_op (add_user n g t) fs = (Ok tt, fs1) ->
  run_op (delete_user n) fs1 =
    (Ok tt, {| doc := DocJson (load_user_file (doc fs)); writable := true |}).
Proof.
  intros H. apply run_op_ok_inv in H as (H & _ & Hfs1).
  unfold add_user in H. destruct (parse_i32 t) as [v|]; [|discriminate].
  rewrite existsb_user_elem in H.
  destruct (bool_decide (n ∈ user <$> load_user_file (doc fs))) eqn:E; [discriminate|].
  apply bool_decide_eq_false in E. injection H as H.
  rewrite Hfs1. unfold run_op. simpl. rewrite <- H, delete_user_eq.
  rewrite bool_decide_eq_true_2.
  2:{ rewrite fmap_app, elem_of_app. right. simpl. apply list_elem_of_here. }
  unfold retain_not. rewrite List.filter_app. simpl. rewrite String.eqb_refl.
  simpl. rewrite app_nil_r. fold (retain_not n (load_user_file (doc fs))).
  by rewrite retain_not_absent.
Qed.

Lemma add_user_delete_user_witness :
  run_op (add_user "Z" "G" "4") (fs_with "Q" "G" 3) =
    (Ok tt, {| doc := DocJson [{| user := "Q"; games := {["G" := 3]} |};
                               {| user := "Z"; games := {["G" := 4]} |}];
               writable := true |}) /\
  run_op (delete_user "Z")
    {| doc := DocJson [{| user := "Q"; games := {["G" := 3]} |};
                       {| user := "Z"; games := {["G" := 4]} |}];
       writable := true |} =
    (Ok tt, {| doc := DocJson (load_user_file (doc (fs_with "Q" "G" 3)));
               writable := true |}).
Proof.
  assert (H : run_op (add_user "Z" "G" "4") (fs_with "Q" "G" 3) =
    (Ok tt, {| doc := DocJson [{| user := "Q"; games := {["G" := 3]} |};
                               {| user := "Z"; games := {["G" := 4]} |}];
               writable := true |})) by (vm_compute; reflexivity).
  split; [exact H|]. exact (add_user_delete_user _ _ _ _ _ H).
Defined.

(** On a collection satisfying the store invariants, removing a game just
    added restores the collection that was loaded before the addition. *)
Theorem add_game_remove_game (n g t : string) (fs fs1 : FS) :
  users_ok (load_user_file (doc fs)) ->
  run_op (add_game n g t) fs = (Ok tt, fs1) ->
  run_op (remove_game n g) fs1 =
    (Ok tt, {| doc := DocJson (load_user_file (doc fs)); writable := true |}).
Proof.
  intros [_ Hall] H. apply run_op_ok_inv in H as (H & _ & Hfs1).
  unfold add_game in H. destruct (parse_i32 t) as [v|]; [|discriminate].
  destruct (find_user n (load_user_file (doc fs))) as [u|] eqn:F; [|discriminate].
  destruct (bool_decide (is_Some (games u !! g))) eqn:G; [discriminate|].
  apply bool_decide_eq_false in G. apply eq_None_not_Some in G.
  injection H as H. rewrite Hfs1. unfold run_op. simpl. rewrite <- H.
  unfold remove_game. rewrite find_update_first, F. simpl.
  rewrite lookup_insert_eq, delete_insert_id by exact G.
  destruct (find_user_in _ _ _ F) as [Hin _].
  rewrite List.Forall_forall in Hall. destruct (Hall u Hin) as [_ Hne].
  rewrite bool_decide_eq_false_2 by exact Hne.
  unfold save_users_to_file. simpl.
  rewrite update_first_twice, update_first_same by exact F. reflexivity.
Qed.

Lemma add_game_remove_game_witness :
  (users_ok (load_user_file (doc (fs_with "Q" "G" 3))) /\
   run_op (add_game "Q" "Halo" "15") (fs_with "Q" "G" 3) = (Ok tt, fs_two_games)) /\
  run_op (remove_game "Q" "Halo") fs_two_games =
    (Ok tt, {| doc := DocJson (load_user_file (doc (fs_with "Q" "G" 3)));
               writable := true |}).
Proof.
  assert (H1 : users_ok (load_user_file (doc (fs_with "Q" "G" 3)))).
  { split.
    - simpl. apply NoDup_singleton.
    - constructor; [|constructor]. split;
        [apply NoDup_fst_map_to_list|apply map_non_empty_singleton]. }
  assert (H2 : run_op (add_game "Q" "Halo" "15") (fs_with "Q" "G" 3) =
                 (Ok tt, fs_two_games)) by (vm_compute; reflexivity).
  split; [split; assumption|]. exact (add_game_remove_game _ _ _ _ _ H1 H2).
Defined.

(** A successful mutating operation on user [n] leaves what the queries
    see for any other user name unchanged. *)
Theorem run_mut_other_user (m : MutOp) (n' : string) (fs fs' : FS) :
  run_mut m fs = (Ok tt, fs') -> mut_user m <> n' ->
  find_user n' (load_user_file (doc fs')) = find_user n' (load_user_file (doc fs)).
Proof.
  intros H Hne. apply run_op_ok_inv in H as [H _].
  remember (load_user_file (doc fs')) as us'. clear Hequs'.
  remember (load_user_file (doc fs)) as us. clear Hequs.
  destruct m as [n g t|n g t|n g t|n g|n]; simpl in H, Hne.
  - unfold add_user in H. destruct (parse_i32 t); [|discriminate].
    destruct (List.existsb _ _); [discriminate|]. injection H as <-.
    by apply find_user_app_other.
  - unfold add_game in H. destruct (parse_i32 t); [|discriminate].
    destruct (find_user n us); [|discriminate]. destruct (bool_decide _); [discriminate|].
    injection H as <-. by apply find_user_update_other.
  - unfold update_total in H. destruct (parse_i32 t); [|discriminate].
    destruct (find_user n us) as [u|]; [|discriminate].
    destruct (games u !! g); [|discriminate]. injection H as <-.
    by apply find_user_update_other.
  - unfold remove_game in H. destruct (find_user n us) as [u|]; [|discriminate].
    destruct (games u !! g); [|discriminate].
    destruct (bool_decide _); injection H as <-.
    + rewrite find_user_retain_other by exact Hne. by apply find_user_update_other.
    + by apply find_user_update_other.
  - rewrite delete_user_eq in H. destruct (bool_decide _); [|discriminate].
    injection H as <-. by apply find_user_retain_other.
Qed.

Lemma run_mut_other_user_witness :
  (run_mut (MDeleteUser "Z")
     {| doc := DocJson [{| user := "Q"; games := {["G" := 3]} |};
                        {| user := "Z"; games := {["G" := 4]} |}];
        writable := true |} = (Ok tt, fs_with "Q" "G" 3) /\
   mut_user (MDeleteUser "Z") <> "Q") /\
  find_user "Q" (load_user_file (doc (fs_with "Q" "G" 3))) =
  find_user "Q" (load_user_file (doc
     {| doc := DocJson [{| user := "Q"; games := {["G" := 3]} |};
                        {| user := "Z"; games := {["G" := 4]} |}];
        writable := true |})).
Proof.
  assert (H1 : run_mut (MDeleteUser "Z")
     {| doc := DocJson [{| user := "Q"; games := {["G" := 3]} |};
                        {| user := "Z"; games := {["G" := 4]} |}];
        writable := true |} = (Ok tt, fs_with "Q" "G" 3)) by (vm_compute; reflexivity).
  assert (H2 : mut_user (MDeleteUser "Z") <> "Q") by discriminate.
  split; [split; assumption|]. exact (run_mut_other_user _ _ _ _ H1 H2).
Defined.

(* ------------------------------------------------------------------ *)
(** ** Integer properties *)

Lemma wrap32_add_l (a b : Z) : wrap32 (wrap32 a + b) = wrap32 (a + b).
Proof.
  unfold wrap32. f_equal.
  replace ((a + 2 ^ 31) mod 2 ^ 32 - 2 ^ 31 + b + 2 ^ 31)
    with ((a + 2 ^ 31) mod 2 ^ 32 + b) by ring.
  rewrite Zplus_mod_idemp_l. f_equal. ring.
Qed.

Lemma games_sum_delete (m : gmap string Z) (g : string) (x : Z) :
  m !! g = Some x ->
  map_fold (fun _ v acc => v + acc) 0 m = x + map_fold (fun _ v acc => v + acc) 0 (delete g m).
Proof.
  intros H. apply (map_fold_delete_L (fun _ v acc => v + acc) 0 g x m);
    [intros; lia|exact H].
Qed.

Lemma games_sum_insert_new (m : gmap string Z) (g : string) (x : Z) :
  m !! g = None ->
  map_fold (fun _ v acc => v + acc) 0 (<[g := x]> m) =
  x + map_fold (fun _ v acc => v + acc) 0 m.
Proof.
  intros H. apply (map_fold_insert_L (fun _ v acc => v + acc) 0 g x m);
    [intros; lia|exact H].
Qed.

Lemma games_sum_insert (m : gmap string Z) (g : string) (x y : Z) :
  m !! g = Some x ->
  map_fold (fun _ v acc => v + acc) 0 (<[g := y]> m) =
  map_fold (fun _ v acc => v + acc) 0 m - x + y.
Proof.
  intros H. rewrite (games_sum_delete m g x H), <- insert_delete_eq.
  rewrite games_sum_insert_new by apply lookup_delete_eq. lia.
Qed.

(** After [update_total n g d] succeeds, the user's total across all
    games is the previous one plus [d], in [i32] arithmetic. *)
Theorem update_total_user_total (n g t : string) (fs fs' : FS) (tot d : Z) (r : Z * bool) :
  run_query (get_user_total_all_games n) fs = Ok tot ->
  parse_i32 t = Some d ->
  run_op (update_total n g t) fs = (Ok r, fs') ->
  run_query (get_user_total_all_games n) fs' = Ok (wrap32 (tot + d)).
Proof.
  intros Hq Hp H. apply run_op_ok_inv in H as [H _].
  unfold run_query, get_user_total_all_games in *.
  destruct (find_user n (load_user_file (doc fs))) as [u|] eqn:F; [|discriminate].
  injection Hq as <-. unfold update_total in H. rewrite Hp, F in H.
  destruct (games u !! g) as [old|] eqn:G; [|discriminate]. injection H as H _.
  rewrite <- H, find_update_first, F. simpl. f_equal.
  rewrite (games_sum_insert _ _ old) by exact G.
  set (S := map_fold (fun _ v acc => v + acc) 0 (games u)).
  rewrite wrap32_add_l, (Z.add_comm (S - old)), wrap32_add_l.
  f_equal. lia.
Qed.

Lemma update_total_user_total_witness :
  (run_query (get_user_total_all_games "Q") fs_two_games = Ok 18 /\
   parse_i32 "-5" = Some (-5) /\
   run_op (update_total "Q" "G" "-5") fs_two_games =
     (Ok (-2, false),
      {| doc := DocJson [{| user := "Q"; games := <["Halo" := 15]> {["G" := -2]} |}];
         writable := true |})) /\
  run_query (get_user_total_all_games "Q")
    {| doc := DocJson [{| user := "Q"; games := <["Halo" := 15]> {["G" := -2]} |}];
       writable := true |} = Ok (wrap32 (18 + -5)).
Proof.
  assert (H1 : run_query (get_user_total_all_games "Q") fs_two_games = Ok 18)
    by (vm_compute; reflexivity).
  assert (H2 : parse_i32 "-5" = Some (-5)) by reflexivity.
  assert (H3 : run_op (update_total "Q" "G" "-5") fs_two_games =
     (Ok (-2, false),
      {| doc := DocJson [{| user := "Q"; games := <["Halo" := 15]> {["G" := -2]} |}];
         writable := true |})) by (vm_compute; reflexivity).
  split; [repeat split; assumption|].
  exact (update_total_user_total _ _ _ _ _ _ _ _ H1 H2 H3).
Defined.

(** After [add_game n g t] succeeds, the user's total across all games is
    the previous one plus the new game's total, in [i32] arithmetic. *)
Theorem add_game_user_total (n g t : string) (fs fs' : FS) (tot v : Z) :
  run_query (get_user_total_all_games n) fs = Ok tot ->
  parse_i32 t = Some v ->
  run_op (add_game n g t) fs = (Ok tt, fs') ->
  run_query (get_user_total_all_games n) fs' = Ok (wrap32 (tot + v)).
Proof.
  intros Hq Hp H. apply run_op_ok_inv in H as [H _].
  unfold run_query, get_user_total_all_games in *.
  destruct (find_user n (load_user_file (doc fs))) as [u|] eqn:F; [|discriminate].
  injection Hq as <-. unfold add_game in H. rewrite Hp, F in H.
  destruct (bool_decide (is_Some (games u !! g))) eqn:G; [discriminate|].
  apply bool_decide_eq_false in G. apply eq_None_not_Some in G.
  injection H as H. rewrite <- H, find_update_first, F. simpl. f_equal.
  rewrite games_sum_insert_new by exact G. rewrite wrap32_add_l. f_equal. lia.
Qed.

Lemma add_game_user_total_witness :
  (run_query (get_user_total_all_games "Q") (fs_with "Q" "G" 3) = Ok 3 /\
   parse_i32 "15" = Some 15 /\
   run_op (add_game "Q" "Halo" "15") (fs_with "Q" "G" 3) = (Ok tt, fs_two_games)) /\
  run_query (get_user_total_all_games "Q") fs_two_games = Ok (wrap32 (3 + 15)).
Proof.
  assert (H1 : run_query (get_user_total_all_games "Q") (fs_with "Q" "G" 3) = Ok 3)
    by (vm_compute; reflexivity).
  assert (H2 : parse_i32 "15" = Some 15) by reflexivity.
  assert (H3 : run_op (add_game "Q" "Halo" "15") (fs_with "Q" "G" 3) =
                 (Ok tt, fs_two_games)) by (vm_compute; reflexivity).
  split; [repeat split; assumption|].
  exact (add_game_user_total _ _ _ _ _ _ _ H1 H2 H3).
Defined.

(* ------------------------------------------------------------------ *)
(** ** Further properties of the tokenizer *)

Lemma str_app_cons (x : Ascii.ascii) (a b : string) :
  (String x a ++ b)%string = String x (a ++ b).
Proof. reflexivity. Qed.

Lemma str_app_assoc (a b c : string) : ((a ++ b) ++ c)%string = (a ++ (b ++ c))%string.
Proof.
  induction a as [|x a IH]; [reflexivity|]. by rewrite !str_app_cons, IH.
Qed.

Lemma str_app_nil_r (a : string) : (a ++ EmptyString)%string = a.
Proof. induction a as [|x a IH]; [reflexivity|]. by rewrite str_app_cons, IH. Qed.

Lemma has_char_app (c : Ascii.ascii) (a b : string) :
  has_char c (a ++ b) = has_char c a || has_char c b.
Proof.
  induction a as [|x a IH]; [reflexivity|]. rewrite str_app_cons. simpl.
  by rewrite IH, orb_assoc.
Qed.

Lemma parse_loop_quote (s : string) iq cur parts :
  parse_loop (String quote_char s) iq cur parts = parse_loop s (negb iq) cur parts.
Proof. reflexivity. Qed.

Lemma parse_loop_space_out (s : string) cur parts :
  parse_loop (String space_char s) false cur parts =
  if String.eqb cur EmptyString then parse_loop s false cur parts
  else parse_loop s false EmptyString (parts ++ [cur]).
Proof. reflexivity. Qed.

Lemma parse_loop_no_quote (s : string) : forall iq cur parts,
  has_char quote_char cur = false ->
  Forall (fun t => has_char quote_char t = false) parts ->
  Forall (fun t => has_char quote_char t = false) (parse_loop s iq cur parts).
Proof.
  induction s as [|c s IH]; intros iq cur parts Hc Hp; simpl.
  - destruct (String.eqb cur EmptyString); [exact Hp|].
    apply Forall_app; split; [exact Hp|]. by constructor.
  - destruct (Ascii.eqb c quote_char) eqn:Q; [by apply IH|].
    destruct (Ascii.eqb c space_char && negb iq).
    + destruct (String.eqb cur EmptyString); apply IH; try done.
      apply Forall_app; split; [exact Hp|]. by constructor.
    + apply IH; [|exact Hp]. rewrite has_char_app. simpl. by rewrite Hc, Q.
Qed.

(** No token produced by the tokenizer contains a double quote. *)
Theorem parse_command_with_quotes_no_quote (s : string) :
  Forall (fun t => has_char quote_char t = false) (parse_command_with_quotes s).
Proof. apply parse_loop_no_quote; [reflexivity|constructor]. Qed.

Lemma parse_loop_plain (t : string) : forall r iq cur parts,
  has_char quote_char t = false ->
  (iq = true \/ has_char space_char t = false) ->
  parse_loop (t ++ r) iq cur parts = parse_loop r iq (cur ++ t) parts.
Proof.
  induction t as [|c t IH]; intros r iq cur parts Hq Hs.
  - by rewrite str_app_nil_r.
  - rewrite str_app_cons. simpl.
    simpl in Hq, Hs. apply orb_false_iff in Hq as [Hq1 Hq2]. rewrite Hq1.
    assert (Hsp : (Ascii.eqb c space_char && negb iq) = false).
    { destruct Hs as [->|Hs]; [by rewrite andb_false_r|].
      apply orb_false_iff in Hs as [Hs _]. by rewrite Hs. }
    rewrite Hsp, IH; [|done|].
    + by rewrite str_app_assoc.
    + destruct Hs as [->|Hs]; [by left|right].
      apply orb_false_iff in Hs. tauto.
Qed.

Lemma parse_loop_render (t r : string) (parts : list string) :
  has_char quote_char t = false ->
  parse_loop (render_token t ++ r) false EmptyString parts = parse_loop r false t parts.
Proof.
  intros Hq. unfold render_token. destruct (has_char space_char t) eqn:Hs.
  - unfold quoted. rewrite str_app_cons, parse_loop_quote, str_app_assoc.
    rewrite parse_loop_plain by auto. rewrite str_app_cons, parse_loop_quote.
    reflexivity.
  - rewrite parse_loop_plain by auto. reflexivity.
Qed.

Lemma parse_loop_join (ts : list string) : forall parts,
  Forall (fun t => t <> EmptyString /\ has_char quote_char t = false) ts ->
  parse_loop (join_tokens ts) false EmptyString parts = parts ++ ts.
Proof.
  induction ts as [|t ts IH]; intros parts Hts.
  - simpl. by rewrite app_nil_r.
  - inversion Hts as [|? ? [Hne Hq] Hts']; subst.
    assert (Heq : String.eqb t EmptyString = false) by (by apply String.eqb_neq).
    destruct ts as [|t2 ts].
    + simpl. rewrite <- (str_app_nil_r (render_token t)), parse_loop_render by exact Hq.
      simpl. by rewrite Heq.
    + change (join_tokens (t :: t2 :: ts))
        with (render_token t ++ String space_char (join_tokens (t2 :: ts)))%string.
      rewrite parse_loop_render by exact Hq. rewrite parse_loop_space_out, Heq.
      rewrite IH by exact Hts'. by rewrite <- app_assoc.
Qed.

(** Non-empty tokens without double quotes, written back separated by
    single spaces (a token holding a space inside double quotes), are
    tokenized back to the same list. *)
Theorem parse_join_tokens (ts : list string) :
  Forall (fun t => t <> EmptyString /\ has_char quote_char t = false) ts ->
  parse_command_with_quotes (join_tokens ts) = ts.
Proof. intros H. unfold parse_command_with_quotes. by rewrite parse_loop_join. Qed.

Lemma parse_join_tokens_witness :
  Forall (fun t => t <> EmptyString /\ has_char quote_char t = false)
    ["!adduser"; "Q"; "Tekken 8"; "200"] /\
  parse_command_with_quotes (join_tokens ["!adduser"; "Q"; "Tekken 8"; "200"]) =
    ["!adduser"; "Q"; "Tekken 8"; "200"].
Proof.
  assert (H : Forall (fun t => t <> EmptyString /\ has_char quote_char t = false)
                ["!adduser"; "Q"; "Tekken 8"; "200"]).
  { repeat constructor; discriminate. }
  split; [exact H|]. exact (parse_join_tokens _ H).
Defined.

(** Tokenizing, writing the tokens back and tokenizing again gives the
    same tokens. *)
Theorem parse_command_with_quotes_idempotent (s : string) :
  parse_command_with_quotes (join_tokens (parse_command_with_quotes s)) =
  parse_command_with_quotes s.
Proof.
  unfold parse_command_with_quotes at 1. rewrite parse_loop_join; [reflexivity|].
  pose proof (parse_loop_nonempty s false EmptyString [] ltac:(constructor)) as H1.
  pose proof (parse_loop_no_quote s false EmptyString [] eq_refl ltac:(constructor)) as H2.
  unfold parse_command_with_quotes. rewrite List.Forall_forall in *.
  intros x Hx. split; [by apply H1|by apply H2].
Qed.

(* ------------------------------------------------------------------ *)
(** ** Further properties of the dispatcher *)

Lemma run_blocks_continue_cons (b : list Event -> FS -> Flow) bs evs fs evs' fs' :
  b evs fs = Continue evs' fs' -> run_blocks (b :: bs) evs fs = run_blocks bs evs' fs'.
Proof. intros H. simpl. by rewrite H. Qed.

Lemma cmd_block_run (k : Cmd) (content : string) evs fs :
  String.prefix (keyword k) content = true ->
  length (parse_command_with_quotes content) = arity k ->
  cmd_block k content evs fs =
    Continue (evs ++ fst (handle k (parse_command_with_quotes content) fs))
             (snd (handle k (parse_command_with_quotes content) fs)).
Proof.
  intros Hp Hn. unfold cmd_block. rewrite Hp.
  apply Nat.eqb_eq in Hn. rewrite Hn. simpl.
  by destruct (handle k (parse_command_with_quotes content) fs).
Qed.

Lemma message_handle (k : Cmd) (content : string) (fs : FS) :
  String.prefix (keyword k) content = true ->
  length (parse_command_with_quotes content) = arity k ->
  message content fs = handle k (parse_command_with_quotes content) fs.
Proof.
  intros Hk Hn. destruct (prefix_app_inv _ _ Hk) as [r Hc].
  unfold message, handler_blocks.
  destruct k;
    repeat (rewrite run_blocks_skip_cons by (rewrite Hc; reflexivity));
    (erewrite run_blocks_continue_cons by (apply cmd_block_run; assumption));
    repeat (rewrite run_blocks_skip_cons by (rewrite Hc; reflexivity));
    cbn [run_blocks app]; by destruct (handle _ (parse_command_with_quotes content) fs).
Qed.

(** A line that starts with one of the eight argument keywords and has
    that command's token count runs exactly that command's handler: the
    events and the file system afterwards are those of the handler alone. *)
Theorem message_dispatch (k : Cmd) (content : string) (fs : FS) :
  String.prefix (keyword k) content = true ->
  length (parse_command_with_quotes content) = arity k ->
  message content fs = handle k (parse_command_with_quotes content) fs.
Proof. exact (message_handle k content fs). Qed.

Lemma message_dispatch_witness :
  (String.prefix (keyword KGameTotal) ("!gametotal Q " ++ quoted "Tekken 8") = true /\
   length (parse_command_with_quotes ("!gametotal Q " ++ quoted "Tekken 8")) = arity KGameTotal) /\
  message ("!gametotal Q " ++ quoted "Tekken 8") (fs_with "Q" "Tekken 8" 7) =
    handle KGameTotal ["!gametotal"; "Q"; "Tekken 8"] (fs_with "Q" "Tekken 8" 7).
Proof.
  assert (H1 : String.prefix (keyword KGameTotal) ("!gametotal Q " ++ quoted "Tekken 8") = true)
    by reflexivity.
  assert (H2 : length (parse_command_with_quotes ("!gametotal Q " ++ quoted "Tekken 8"))
                 = arity KGameTotal) by reflexivity.
  split; [split; assumption|].
  exact (message_dispatch _ _ _ H1 H2).
Defined.

(** For a well-formed [!updatetotal] line, the bot sends an alert, and
    only for the user and game of the line, exactly when [update_total]
    succeeds and reports that the total crossed 300. *)
Theorem message_updatetotal_alert (content : string) (fs : FS) (a b : string) :
  String.prefix "!updatetotal" content = true ->
  length (parse_command_with_quotes content) = 4%nat ->
  let parts := parse_command_with_quotes content in
  Say (RAlert a b) ∈ fst (message content fs) <->
  a = arg parts 1 /\ b = arg parts 2 /\
  exists new_total,
    fst (run_op (update_total (arg parts 1) (arg parts 2) (arg parts 3)) fs) =
      Ok (new_total, true).
Proof.
  intros Hp Hn parts.
  rewrite (message_handle KUpdateTotal content fs Hp Hn). fold parts.
  unfold handle.
  destruct (run_op (update_total (arg parts 1) (arg parts 2) (arg parts 3)) fs)
    as [[[nt c]|e] fs'].
  - simpl. rewrite elem_of_cons, elem_of_cons. split.
    + intros [H|[H|H]]; [discriminate|discriminate|].
      destruct c; [|by apply elem_of_nil in H].
      apply list_elem_of_singleton in H. injection H as -> ->.
      split; [done|]. split; [done|]. by exists nt.
    + intros (-> & -> & nt' & Hr). injection Hr as _ ->.
      right; right. apply list_elem_of_here.
  - simpl. rewrite elem_of_cons, list_elem_of_singleton. split.
    + intros [H|H]; discriminate.
    + intros (_ & _ & nt' & Hr). discriminate.
Qed.

Lemma message_updatetotal_alert_witness :
  (String.prefix "!updatetotal" "!updatetotal Q G 250" = true /\
   length (parse_command_with_quotes "!updatetotal Q G 250") = 4%nat) /\
  Say (RAlert "Q" "G") ∈ fst (message "!updatetotal Q G 250" (fs_with "Q" "G" 100)).
Proof.
  assert (H1 : String.prefix "!updatetotal" "!updatetotal Q G 250" = true) by reflexivity.
  assert (H2 : length (parse_command_with_quotes "!updatetotal Q G 250") = 4%nat)
    by reflexivity.
  split; [split; assumption|].
  apply (proj2 (message_updatetotal_alert _ (fs_with "Q" "G" 100) "Q" "G" H1 H2)).
  split; [reflexivity|]. split; [reflexivity|]. exists 350. reflexivity.
Defined.

Lemma handle_file (k : Cmd) (parts : list string) (fs : FS) :
  snd (handle k parts fs) = fs \/
  exists c, is_mut_call c = true /\ Call c ∈ fst (handle k parts fs).
Proof.
  destruct k; unfold handle;
    try (left; reflexivity);
    match goal with |- context [run_op ?op fs] => destruct (run_op op fs) end;
    simpl; right; eexists; (split; [|apply list_elem_of_here]); reflexivity.
Qed.

Lemma handler_blocks_ok (content : string) : Forall block_ok (handler_blocks content).
Proof.
  assert (Hc : forall k, block_ok (cmd_block k content)).
  { intros k evs fs. unfold cmd_block.
    destruct (String.prefix (keyword k) content); [|exists []; simpl; split; [by rewrite app_nil_r|by left]].
    destruct (negb _); [exists [Say (RUsage k)]; simpl; split; [done|by left]|].
    destruct (handle k (parse_command_with_quotes content) fs) as [evs' fs'] eqn:Hh.
    exists evs'. simpl. split; [done|].
    pose proof (handle_file k (parse_command_with_quotes content) fs) as H.
    by rewrite Hh in H. }
  unfold handler_blocks. repeat constructor; try apply Hc; intros evs fs.
  - unfold help_block. destruct (_ || _).
    + exists [Say RHelp]. simpl. by split; [|left].
    + exists []. simpl. split; [by rewrite app_nil_r|by left].
  - unfold quickhelp_block. destruct (String.eqb _ _).
    + exists [Say RQuickHelp]. simpl. by split; [|left].
    + exists []. simpl. split; [by rewrite app_nil_r|by left].
  - unfold getusers_block. destruct (String.eqb _ _).
    + destruct (run_query get_users fs) as [[|u us]|e]; simpl;
        (eexists; split; [reflexivity|by left]).
    + exists []. simpl. split; [by rewrite app_nil_r|by left].
Qed.

Lemma run_blocks_file (bs : list (list Event -> FS -> Flow)) :
  Forall block_ok bs -> forall evs fs, exists more,
    fst (flow_result (run_blocks bs evs fs)) = evs ++ more /\
    (snd (flow_result (run_blocks bs evs fs)) = fs \/
     exists c, is_mut_call c = true /\ Call c ∈ more).
Proof.
  induction 1 as [|b bs Hb Hbs IH]; intros evs fs.
  - exists []. simpl. split; [by rewrite app_nil_r|by left].
  - destruct (Hb evs fs) as (m1 & E1 & F1). simpl.
    destruct (b evs fs) as [evs1 fs1|evs1 fs1]; simpl in E1, F1 |- *.
    + destruct (IH evs1 fs1) as (m2 & E2 & F2).
      subst evs1. exists (m1 ++ m2). rewrite E2, app_assoc. split; [done|].
      destruct F2 as [->|(c & Hc & Hin)]; [destruct F1 as [->|(c & Hc & Hin)]|].
      * by left.
      * right. exists c. split; [done|]. apply elem_of_app. by left.
      * right. exists c. split; [done|]. apply elem_of_app. by right.
    + exists m1. split; [done|]. exact F1.
Qed.

(** The handler changes the file system only if it issued a call to one
    of the five mutating store functions. *)
Theorem message_file_change (content : string) (fs : FS) :
  snd (message content fs) <> fs ->
  exists c, is_mut_call c = true /\ Call c ∈ fst (message content fs).
Proof.
  intros Hne.
  destruct (run_blocks_file _ (handler_blocks_ok content) [] fs) as (m & E & F).
  assert (Hm : message content fs = flow_result (run_blocks (handler_blocks content) [] fs)).
  { unfold message. by destruct (run_blocks _ _ _). }
  rewrite Hm in Hne |- *. rewrite E.
  destruct F as [F|F]; [contradiction|exact F].
Qed.

Lemma message_file_change_witness :
  snd (message "!adduser Q G 5" fs_empty) <> fs_empty /\
  exists c, is_mut_call c = true /\ Call c ∈ fst (message "!adduser Q G 5" fs_empty).
Proof.
  assert (H : snd (message "!adduser Q G 5" fs_empty) <> fs_empty)
    by (vm_compute; discriminate).
  split; [exact H|]. exact (message_file_change _ _ H).
Defined.

(** No line starts with two of the eight argument keywords, so at most
    one of the [starts_with] tests of the handler succeeds. *)
Theorem keyword_prefix_unique (k1 k2 : Cmd) (content : string) :
  String.prefix (keyword k1) content = true ->
  String.prefix (keyword k2) content = true -> k1 = k2.
Proof.
  intros H1 H2. destruct (prefix_app_inv _ _ H1) as [r ->].
  destruct k1, k2; try reflexivity; vm_compute in H2; discriminate H2.
Qed.

Lemma keyword_prefix_unique_witness :
  (String.prefix (keyword KUserGames) "!usergames Q" = true /\
   String.prefix (keyword KUserGames) "!usergames Q" = true) /\
  KUserGames = KUserGames.
Proof.
  assert (H : String.prefix (keyword KUserGames) "!usergames Q" = true) by reflexivity.
  split; [split; exact H|]. exact (keyword_prefix_unique _ _ _ H H).
Defined.

Lemma handle_calls (k : Cmd) (parts : list string) (fs : FS) :
  length (filter is_call (fst (handle k parts fs))) = 1%nat.
Proof.
  destruct k; unfold handle;
    try match goal with |- context [run_op ?op fs] => destruct (run_op op fs) as [r fs'] end;
    simpl; unfold reply_of; repeat case_match; reflexivity.
Qed.

Lemma message_usage (k : Cmd) (content : string) (fs : FS) :
  String.prefix (keyword k) content = true ->
  length (parse_command_with_quotes content) <> arity k ->
  message content fs = ([Say (RUsage k)], fs).
Proof.
  intros Hk Hn. destruct (prefix_app_inv _ _ Hk) as [r Hc].
  unfold message, handler_blocks.
  destruct k;
    repeat (rewrite run_blocks_skip_cons by (rewrite Hc; reflexivity));
    (erewrite run_blocks_return_cons by (apply cmd_block_usage; assumption));
    reflexivity.
Qed.

(** Whatever the line, the handler makes at most one call into the store:
    the keyword tests select at most one command. *)
Theorem message_at_most_one_call (content : string) (fs : FS) :
  (length (filter is_call (fst (message content fs))) <= 1)%nat.
Proof.
  assert (Hd : (exists k, String.prefix (keyword k) content = true) \/
               forall k, String.prefix (keyword k) content = false).
  { destruct (String.prefix (keyword KAddUser) content) eqn:E1; [by left; exists KAddUser|].
    destruct (String.prefix (keyword KAddGame) content) eqn:E2; [by left; exists KAddGame|].
    destruct (String.prefix (keyword KUpdateTotal) content) eqn:E3; [by left; exists KUpdateTotal|].
    destruct (String.prefix (keyword KRemoveGame) content) eqn:E4; [by left; exists KRemoveGame|].
    destruct (String.prefix (keyword KDeleteUser) content) eqn:E5; [by left; exists KDeleteUser|].
    destruct (String.prefix (keyword KUserGames) content) eqn:E6; [by left; exists KUserGames|].
    destruct (String.prefix (keyword KGameTotal) content) eqn:E7; [by left; exists KGameTotal|].
    destruct (String.prefix (keyword KUserTotal) content) eqn:E8; [by left; exists KUserTotal|].
    right. intros []; assumption. }
  destruct Hd as [[k Hk]|Hp].
  - destruct (decide (length (parse_command_with_quotes content) = arity k)) as [E|E].
    + rewrite (message_handle k content fs Hk E), handle_calls. lia.
    + rewrite (message_usage k content fs Hk E). simpl. lia.
  - unfold message, handler_blocks, help_block, quickhelp_block, getusers_block, cmd_block.
    rewrite !Hp. simpl.
    repeat case_match; simplify_eq; simpl; lia.
Qed.
